(** * pragma.core.types: domain entities, wire encodings and network resolution

    A shallow embedding of [src/pragma/core/types.py].  Python objects are
    embedded as a small universe of values, dictionaries as finite maps,
    exceptions as the left summand of a sum, and the random endpoint choice
    of [get_rpc_url] as the list of its equiprobable outcomes. *)

From Stdlib Require Import ZArith String Ascii List DecimalString.
From stdpp Require Import gmap strings list list_numbers fin_maps.

#[local] Set Warnings "-register-all".
Local Open Scope string_scope.
Local Open Scope Z_scope.

(** ** Python values and exceptions *)

(** [DataTypes = Enum("DataTypes", ["SPOT", "FUTURE", "OPTION"])]: the
    functional API numbers the members 1, 2, 3 in the order given. *)
Inductive DataTypes : Set := SPOT | FUTURE | OPTION.

(** The Python objects that reach the constructors and come out of the
    serializers of this module. *)
Inductive value : Type :=
  | VNone
  | VBool (b : bool)
  | VInt (z : Z)
  | VStr (s : string)
  | VTuple (items : list value)
  | VDataTypes (member : DataTypes).

(** Exceptions by class.  [TypeError] and [ClientException] carry the
    message the module itself writes; the messages of [ValueError],
    [KeyError] and [IndexError] are produced by the interpreter and are
    not modelled. *)
Inductive exn : Type :=
  | TypeError (message : string)
  | ValueError
  | KeyError
  | IndexError
  | ClientException (message : string).

(** A call either raises or returns. *)
Definition result (A : Type) : Type := (exn + A)%type.
Definition raise {A : Type} (e : exn) : result A := inl e.
Definition ret {A : Type} (x : A) : result A := inr x.

(** [isinstance(v, str)] *)
Definition isinstance_str (v : value) : bool :=
  match v with VStr _ => true | _ => false end.

(** [isinstance(v, int)]: [bool] is a subclass of [int]. *)
Definition isinstance_int (v : value) : bool :=
  match v with VInt _ | VBool _ => true | _ => false end.

(** [bool(v)] for a [v] that is an instance of [int]. *)
Definition bool_of_int (v : value) : value :=
  match v with
  | VInt z => VBool (negb (z =? 0))
  | other => other
  end.

(** [v is None] *)
Definition is_None (v : value) : bool :=
  match v with VNone => true | _ => false end.

(** The interface of [pragma.core.utils], imported by the module and not
    defined in it: the identifier codec.  The constructors call
    [str_to_felt]; [felt_to_str] is only used by the [__repr__] methods,
    which are not modelled. *)
Class Codec : Type := {
  str_to_felt : string -> Z;
  felt_to_str : Z -> string
}.

(** ** Enumerations *)

Module AggregationMode.

(** [MEDIAN = "Median"], [AVERAGE = "Mean"], [ERROR = "Error"] *)
Inductive t : Set := MEDIAN | AVERAGE | ERROR.

(** [self.name] *)
Definition name (self : t) : string :=
  match self with
  | MEDIAN => "MEDIAN"
  | AVERAGE => "AVERAGE"
  | ERROR => "ERROR"
  end.

(** [self.value] *)
Definition value_ (self : t) : string :=
  match self with
  | MEDIAN => "Median"
  | AVERAGE => "Mean"
  | ERROR => "Error"
  end.

(** [return {self.value: None}] *)
Definition serialize (self : t) : gmap string value :=
  {[ value_ self := VNone ]}.

End AggregationMode.

Module RequestStatus.

Inductive t : Set := UNINITIALIZED | RECEIVED | FULFILLED | CANCELLED | OUT_OF_GAS.

(** [self.name] *)
Definition name (self : t) : string :=
  match self with
  | UNINITIALIZED => "UNINITIALIZED"
  | RECEIVED => "RECEIVED"
  | FULFILLED => "FULFILLED"
  | CANCELLED => "CANCELLED"
  | OUT_OF_GAS => "OUT_OF_GAS"
  end.

(** [self.value]: every member is assigned the string of its own name. *)
Definition value_ (self : t) : string :=
  match self with
  | UNINITIALIZED => "UNINITIALIZED"
  | RECEIVED => "RECEIVED"
  | FULFILLED => "FULFILLED"
  | CANCELLED => "CANCELLED"
  | OUT_OF_GAS => "OUT_OF_GAS"
  end.

(** [return {self.value: None}] *)
Definition serialize (self : t) : gmap string value :=
  {[ value_ self := VNone ]}.

End RequestStatus.

(** Sequencing of calls that may raise: the first exception propagates. *)
#[global] Instance result_bind : MBind result :=
  fun A B (k : A -> result B) (c : result A) =>
    match c with
    | inl e => inl e
    | inr x => k x
    end.

(** The result of a call, mapped through a method of the object it returns. *)
#[global] Instance result_fmap : FMap result :=
  fun A B (f : A -> B) (c : result A) =>
    match c with
    | inl e => inl e
    | inr x => inr (f x)
    end.

(** ** Domain entities *)

Module Currency.

Record t : Type := mk {
  id : value;
  decimals : value;
  is_abstract_currency : value;
  starknet_address : value;
  ethereum_address : value
}.

Section WithCodec.
Context `{Codec}.

(** [Currency.__init__]; the two addresses default to [None] when the
    caller omits them. *)
Definition init (id_ decimals is_abstract_currency : value)
    (starknet_address ethereum_address : option value) : result t :=
  let starknet_address := default VNone starknet_address in
  let ethereum_address := default VNone ethereum_address in
  let id_ :=
    match id_ with
    | VStr s => VInt (str_to_felt s)
    | _ => id_
    end in
  let is_abstract_currency :=
    if isinstance_int is_abstract_currency
    then bool_of_int is_abstract_currency
    else is_abstract_currency in
  let starknet_address :=
    if is_None starknet_address then VInt 0 else starknet_address in
  let ethereum_address :=
    if is_None ethereum_address then VInt 0 else ethereum_address in
  ret (mk id_ decimals is_abstract_currency starknet_address ethereum_address).

End WithCodec.

Definition serialize (self : t) : list value :=
  [ id self; decimals self; is_abstract_currency self;
    starknet_address self; ethereum_address self ].

Definition to_dict (self : t) : gmap string value :=
  <["ethereum_address" := ethereum_address self]>
  (<["starknet_address" := starknet_address self]>
  (<["is_abstract_currency" := is_abstract_currency self]>
  (<["decimals" := decimals self]>
  (<["id" := id self]> ∅)))).

End Currency.

Module Pair.

Record t : Type := mk {
  id : value;
  quote_currency_id : value;
  base_currency_id : value
}.

Section WithCodec.
Context `{Codec}.

(** [if isinstance(x, str): x = str_to_felt(x)] *)
Definition coerce (x : value) : value :=
  match x with
  | VStr s => VInt (str_to_felt s)
  | _ => x
  end.

(** [Pair.__init__] *)
Definition init (id_ quote_currency_id base_currency_id : value) : result t :=
  ret (mk (coerce id_) (coerce quote_currency_id) (coerce base_currency_id)).

End WithCodec.

Definition serialize (self : t) : list value :=
  [ id self; quote_currency_id self; base_currency_id self ].

Definition to_dict (self : t) : gmap string value :=
  <["base_currency_id" := base_currency_id self]>
  (<["quote_currency_id" := quote_currency_id self]>
  (<["id" := id self]> ∅)).

End Pair.

(** [member.value] of a [DataTypes] member. *)
Definition DataTypes_value (member : DataTypes) : Z :=
  match member with
  | SPOT => 1
  | FUTURE => 2
  | OPTION => 3
  end.

(** [member.name] *)
Definition DataTypes_name (member : DataTypes) : string :=
  match member with
  | SPOT => "SPOT"
  | FUTURE => "FUTURE"
  | OPTION => "OPTION"
  end.

(** The member whose value is [z], if any. *)
Definition DataTypes_of_value (z : Z) : result DataTypes :=
  if z =? 1 then ret SPOT
  else if z =? 2 then ret FUTURE
  else if z =? 3 then ret OPTION
  else raise ValueError.

(** [DataTypes(x)]: a member is returned as it is, anything else is looked
    up among the members' values ([True == 1] and hashes alike, so it finds
    the first member); a miss raises [ValueError].  Of the objects modelled
    here only integers and booleans can equal a member's value; a float
    equal to 1, 2 or 3 would be found too, and [value] has no floats. *)
Definition DataTypes_call (x : value) : result DataTypes :=
  match x with
  | VDataTypes member => ret member
  | VInt z => DataTypes_of_value z
  | VBool b => DataTypes_of_value (if b then 1 else 0)
  | _ => raise ValueError
  end.

(** The tags [DataTypes(...)] resolves to a given member: the member
    itself and its value. *)
Definition tags_of (member : DataTypes) : list value :=
  [ VDataTypes member; VInt (DataTypes_value member) ].

Module DataType.

Record t : Type := mk {
  data_type : DataTypes;
  pair_id : value;
  expiration_timestamp : value
}.

Section WithCodec.
Context `{Codec}.

(** [DataType.__init__]: the pair id is coerced or refused first, then
    the tag is looked up. *)
Definition init (data_type pair_id expiration_timestamp : value) : result t :=
  pair_id ←
    match pair_id with
    | VStr s => ret (VInt (str_to_felt s))
    | _ =>
        if negb (isinstance_int pair_id)
        then raise (TypeError
               "Pair ID must be string (will be converted to felt) or integer")
        else ret pair_id
    end ;
  data_type ← DataTypes_call data_type ;
  ret (mk data_type pair_id expiration_timestamp).

End WithCodec.

Definition serialize (self : t) : gmap string value :=
  match data_type self with
  | SPOT => {[ "SpotEntry" := pair_id self ]}
  | FUTURE => {[ "FutureEntry" := VTuple [pair_id self; expiration_timestamp self] ]}
  | OPTION => ∅
  end.

Definition to_dict (self : t) : gmap string value :=
  <["data_type" := VStr (DataTypes_name (data_type self))]>
  (<["expiration_timestamp" := expiration_timestamp self]>
  (<["pair_id" := pair_id self]> ∅)).

End DataType.

Module PoolKey.

Record t : Type := mk {
  token_0 : value;
  token_1 : value;
  fee : value;
  tick_spacing : value;
  extension : value
}.

(** [PoolKey.__init__]; [extension] defaults to [0]. *)
Definition init (token_0 token_1 fee tick_spacing : value)
    (extension : option value) : result t :=
  let extension := default (VInt 0) extension in
  ret (mk token_0 token_1 fee tick_spacing extension).

Definition serialize (self : t) : list value :=
  [ token_0 self; token_1 self; fee self; tick_spacing self; extension self ].

Definition to_dict (self : t) : gmap string value :=
  <["extension" := extension self]>
  (<["tick_spacing" := tick_spacing self]>
  (<["fee" := fee self]>
  (<["token_1" := token_1 self]>
  (<["token_0" := token_0 self]> ∅)))).

End PoolKey.

(** ** Network registry *)

Definition DEVNET : string := "devnet".
Definition TESTNET : string := "testnet".
Definition SEPOLIA : string := "sepolia".
Definition MAINNET : string := "mainnet".
Definition SHARINGAN : string := "sharingan".
Definition FORK_DEVNET : string := "fork_devnet".
Definition PRAGMA_TESTNET : string := "pragma_testnet".

(** The names of the [Network] literal type. *)
Definition Network : list string :=
  [ "devnet"; "testnet"; "mainnet"; "sharingan"; "pragma_testnet";
    "fork_devnet"; "sepolia" ].

(** [CHAIN_IDS.items()]: the entries of the dictionary literal, in the
    order they are written (a dictionary iterates in insertion order). *)
Definition CHAIN_IDS_items : list (string * Z) :=
  [ (DEVNET, 1536727068981429685321);
    (SHARINGAN, 1536727068981429685321);
    (TESTNET, 1536727068981429685321);
    (MAINNET, 23448594291968334);
    (PRAGMA_TESTNET, 8908953246943201047421899664489);
    (FORK_DEVNET, 1536727068981429685321);
    (SEPOLIA, 393402133025997798000961) ].

Definition CHAIN_IDS : gmap string Z := list_to_map CHAIN_IDS_items.

(** [{v: k for k, v in items}]: each entry is written under its value, a
    later entry overwriting an earlier one with the same value. *)
Definition invert (items : list (string * Z)) : gmap Z string :=
  foldl (fun acc kv => <[kv.2 := kv.1]> acc) ∅ items.

Definition CHAIN_ID_TO_NETWORK : gmap Z string := invert CHAIN_IDS_items.

(** The networks that carry chain id [c], in the order of [items]. *)
Definition networks_of (items : list (string * Z)) (c : Z) : list string :=
  (filter (fun kv => kv.2 = c) items).*1.

(** The last network, in the order of [items], that carries chain id [c]. *)
Definition last_writer (items : list (string * Z)) (c : Z) : option string :=
  last (networks_of items c).

Definition RPC_URLS : gmap string (list string) :=
  <[SEPOLIA := ["https://starknet-sepolia.public.blastapi.io/rpc/v0_6"]]>
  (<[TESTNET := ["https://starknet-testnet.public.blastapi.io/rpc/v0_6"]]>
  (<[MAINNET := ["https://starknet-mainnet.public.blastapi.io/rpc/v0_6"]]> ∅)).

(** ** Endpoint resolution *)

(** [random.randint(a, b)]: every integer of [a..b] is an outcome, each
    listed once (the draw is uniform); an empty range raises. *)
Definition randint (a b : Z) : list (result Z) :=
  if decide (a <= b) then inr <$> seqZ a (b - a + 1) else [raise ValueError].

(** [d[k]] on a dictionary. *)
Definition dict_getitem {V : Type} (d : gmap string V) (k : string) : result V :=
  match d !! k with
  | Some v => ret v
  | None => raise KeyError
  end.

(** [l[i]] on a list: a negative index counts from the end. *)
Definition list_getitem {A : Type} (l : list A) (i : Z) : result A :=
  let j := if decide (i < 0) then i + Z.of_nat (length l) else i in
  if decide (j < 0) then raise IndexError
  else match l !! Z.to_nat j with
       | Some x => ret x
       | None => raise IndexError
       end.

(** [s.startswith(prefix)] *)
Definition startswith (s prefix : string) : bool := String.prefix prefix s.

(** [str(z)] of an integer, as an f-string interpolates it. *)
Definition str_int (z : Z) : string := NilZero.string_of_int (Z.to_int z).

Section Resolution.

(** The pool table the resolution reads. *)
Variable rpc_urls : gmap string (list string).

(** [random_index = random.randint(0, len(RPC_URLS[N]) - 1);
     return RPC_URLS[N][random_index]] *)
Definition pick (network : string) : list (result string) :=
  match dict_getitem rpc_urls network with
  | inl e => [inl e]
  | inr pool =>
      (fun random_index : result Z =>
         i ← random_index ;
         pool ← dict_getitem rpc_urls network ;
         list_getitem pool i)
      <$> randint 0 (Z.of_nat (length pool) - 1)
  end.

(** [get_rpc_url(network=TESTNET, port=5050)] over the table
    [rpc_urls]: the list of its possible outcomes.  An omitted argument is
    [None] here and takes the default of the signature; the port is an
    [int]. *)
Definition get_rpc_url_from (network : option string) (port : option Z)
    : list (result string) :=
  let network := default TESTNET network in
  let port := default 5050 port in
  if startswith network "http" then [ret network]
  else if decide (network = TESTNET) then pick TESTNET
  else if decide (network = SEPOLIA) then pick SEPOLIA
  else if decide (network = MAINNET) then pick MAINNET
  else if decide (network = SHARINGAN) then [ret "https://sharingan.madara.zone"]
  else if decide (network = PRAGMA_TESTNET) then [ret "https://testnet.pragmaoracle.com/rpc"]
  else if decide (network = DEVNET) then [ret ("http://127.0.0.1:" +:+ str_int port +:+ "/rpc")]
  else if decide (network = FORK_DEVNET) then [ret ("http://127.0.0.1:" +:+ str_int port +:+ "/rpc")]
  else [raise (ClientException "Must provide a network name or an RPC URL.")].

End Resolution.

(** [get_rpc_url], reading the module's own [RPC_URLS]. *)
Definition get_rpc_url (network : option string) (port : option Z)
    : list (result string) :=
  get_rpc_url_from RPC_URLS network port.

(** The names [get_rpc_url] knows. *)
Definition supported_networks : list string :=
  [ MAINNET; TESTNET; SEPOLIA; SHARINGAN; PRAGMA_TESTNET; DEVNET; FORK_DEVNET ].

(** ** The other registry tables and the client *)

(** A dictionary literal: the entries are written in order, a later one
    replacing an earlier one with the same key. *)
Definition dict_literal {V : Type} (entries : list (string * V)) : gmap string V :=
  foldl (fun d kv => <[kv.1 := kv.2]> d) ∅ entries.

Definition STARKSCAN_URLS : gmap string string :=
  dict_literal
    [ (MAINNET, "https://starkscan.co");
      (TESTNET, "https://testnet.starkscan.co");
      (SEPOLIA, "https://sepolia.starkscan.co");
      (DEVNET, "https://devnet.starkscan.co");
      (SHARINGAN, "https://sharingan-explorer.madara.zone");
      (PRAGMA_TESTNET, "https://testnet.pragmaoracle.com/explorer");
      (FORK_DEVNET, "https://devnet.starkscan.co") ].

Definition PRAGMA_API_URL : string := "https://api.dev.pragma.build".

(** [@dataclass class ContractAddresses] *)
Record ContractAddresses : Set := {
  publisher_registry_address : Z;
  oracle_proxy_addresss : Z
}.

Definition CONTRACT_ADDRESSES : gmap string ContractAddresses :=
  dict_literal
    [ (DEVNET, Build_ContractAddresses 0 0);
      (TESTNET, Build_ContractAddresses
         2408056700008799988274832007944460979526684291270693941276336026156441738630
         3108238389225984732543655444430831893780207443780498125530192910262931411303);
      (MAINNET, Build_ContractAddresses
         1035964020232444284030697086969999610062982650901949616270651804992179237909
         1202089834814778579992154020333959781277480478747022471664051891421849487195);
      (SEPOLIA, Build_ContractAddresses
         764259049439565269590387705502051444787910047543242149334355727309682685773
         1526899943909931281366530977873767661043021921869578496106478460498705257242);
      (SHARINGAN, Build_ContractAddresses 0 0);
      (PRAGMA_TESTNET, Build_ContractAddresses 0 0);
      (FORK_DEVNET, Build_ContractAddresses 0 0) ].

Section Client.

(** The node client of [starknet_py], imported by the module: a handle
    built from a URL. *)
Variable client : Type.
Variable FullNodeClient : string -> client.

(** [get_client_from_network(network, port=5050)]:
    [return FullNodeClient(node_url=get_rpc_url(network, port=port))] *)
Definition get_client_from_network (network : string) (port : option Z)
    : list (result client) :=
  let port := default 5050 port in
  (fun url : result string => FullNodeClient <$> url)
    <$> get_rpc_url (Some network) (Some port).

End Client.

(** ** Calls with keyword arguments *)

(** A parameter of a signature: its name and whether it has a default. *)
Record parameter : Set := {
  pname : string;
  pdefault : bool
}.

(** One keyword argument of a call, bound to a signature that collects
    no extra arguments: a name that is no parameter, or a parameter
    that already has a value, raises [TypeError].  The text of these
    messages is the interpreter's; what is kept of it here is the kind of
    the error and the name concerned. *)
Definition bind_keyword (fname : string) (params : list parameter)
    (bound : gmap string value) (kv : string * value) : result (gmap string value) :=
  if decide (kv.1 ∈ pname <$> params) then
    match bound !! kv.1 with
    | Some _ =>
        raise (TypeError (fname +:+ "() got multiple values for argument '" +:+ kv.1 +:+ "'"))
    | None => ret (<[kv.1 := kv.2]> bound)
    end
  else
    raise (TypeError (fname +:+ "() got an unexpected keyword argument '" +:+ kv.1 +:+ "'")).

(** The parameters of [params] that have no value in [bound] and no
    default. *)
Definition missing_parameters (params : list parameter) (bound : gmap string value)
    : list parameter :=
  List.filter
    (fun p => negb (pdefault p)
              && match bound !! pname p with Some _ => false | None => true end)
    params.

(** The positional and keyword arguments of a call of [f], bound to the
    parameters of [f]: positional arguments fill the parameters in order, the keyword
    arguments are bound next, in the order of the call, then positional
    arguments in excess and required parameters left without a value are
    reported.  The result maps each parameter that received a value to it;
    a parameter with a default that received none is absent. *)
Definition bind_arguments (fname : string) (params : list parameter)
    (args : list value) (kwargs : list (string * value)) : result (gmap string value) :=
  let positional : gmap string value := list_to_map (zip (pname <$> params) args) in
  bound ← foldl (fun acc kv => b ← acc ; bind_keyword fname params b kv)
            (ret positional) kwargs ;
  if decide (length params < length args)%nat
  then raise (TypeError (fname +:+ "() takes too many positional arguments"))
  else match missing_parameters params bound with
       | p :: _ =>
           raise (TypeError (fname +:+ "() missing required positional argument: '"
                             +:+ pname p +:+ "'"))
       | [] => ret bound
       end.

(** [def __init__(self, id_, decimals, is_abstract_currency,
                  starknet_address=None, ethereum_address=None)] *)
Definition Currency_signature : list parameter :=
  [ {| pname := "id_"; pdefault := false |};
    {| pname := "decimals"; pdefault := false |};
    {| pname := "is_abstract_currency"; pdefault := false |};
    {| pname := "starknet_address"; pdefault := true |};
    {| pname := "ethereum_address"; pdefault := true |} ].

(** A call of [Currency] with positional and keyword arguments: they are
    bound to the signature of [Currency.__init__], which then runs on
    them. *)
Definition Currency_call `{Codec} (args : list value) (kwargs : list (string * value))
    : result Currency.t :=
  bound ← bind_arguments "Currency.__init__" Currency_signature args kwargs ;
  match bound !! "id_", bound !! "decimals", bound !! "is_abstract_currency" with
  | Some id_, Some decimals, Some is_abstract_currency =>
      Currency.init id_ decimals is_abstract_currency
        (bound !! "starknet_address") (bound !! "ethereum_address")
  | _, _, _ =>
      raise (TypeError "Currency.__init__() missing required positional argument")
  end.

(** * Properties *)

(** Closed decidable facts about the tables are settled by evaluation. *)
Ltac by_evaluation := apply (bool_decide_unpack _); vm_compute; exact I.


(** ** Enumerations *)

(** [@unique]: no two members of an enumeration share a value. *)
Lemma AggregationMode_value_inj (m1 m2 : AggregationMode.t) :
  AggregationMode.value_ m1 = AggregationMode.value_ m2 -> m1 = m2.
Proof. destruct m1, m2; simpl; intros Heq; congruence. Qed.

Lemma RequestStatus_value_inj (r1 r2 : RequestStatus.t) :
  RequestStatus.value_ r1 = RequestStatus.value_ r2 -> r1 = r2.
Proof. destruct r1, r2; simpl; intros Heq; congruence. Qed.

Lemma RequestStatus_value_is_name (r : RequestStatus.t) :
  RequestStatus.value_ r = RequestStatus.name r.
Proof. by destruct r. Qed.

(** C7, as stated, fails on [AggregationMode.AVERAGE]: the member named
    AVERAGE serializes under the key "Mean", and the mapping has no entry
    under the member's name. *)
Lemma AVERAGE_key_is_not_its_name :
  AggregationMode.serialize AggregationMode.AVERAGE = {[ "Mean" := VNone ]}
  /\ AggregationMode.name AggregationMode.AVERAGE = "AVERAGE"
  /\ AggregationMode.serialize AggregationMode.AVERAGE
       !! AggregationMode.name AggregationMode.AVERAGE = None.
Proof. repeat split. Qed.

(** C7 (amended): for every variant of AggregationMode and of RequestStatus,
    [serialize()] is the one-entry mapping from the variant's value (the
    string assigned to it in the class body) to [None].  For RequestStatus
    the value is the member's name; for AggregationMode the values are
    "Median", "Mean" and "Error", so [MEDIAN.serialize() == {"Median": None}]. *)
Theorem enum_serialize_tag :
  (forall m : AggregationMode.t,
     AggregationMode.serialize m = {[ AggregationMode.value_ m := VNone ]}
     /\ dom (AggregationMode.serialize m) = {[ AggregationMode.value_ m ]})
  /\ (forall r : RequestStatus.t,
        RequestStatus.serialize r = {[ RequestStatus.name r := VNone ]}
        /\ dom (RequestStatus.serialize r) = {[ RequestStatus.name r ]})
  /\ AggregationMode.serialize AggregationMode.MEDIAN = {[ "Median" := VNone ]}
  /\ AggregationMode.serialize AggregationMode.AVERAGE = {[ "Mean" := VNone ]}
  /\ AggregationMode.serialize AggregationMode.ERROR = {[ "Error" := VNone ]}.
Proof.
  split; [| split; [| by repeat split]].
  - intros m. split; [done |].
    unfold AggregationMode.serialize. by rewrite dom_singleton_L.
  - intros r. unfold RequestStatus.serialize.
    rewrite RequestStatus_value_is_name. split; [done |].
    by rewrite dom_singleton_L.
Qed.

(** ** DataType *)

Lemma DataTypes_call_tags (member : DataTypes) (tag : value) :
  tag ∈ tags_of member -> DataTypes_call tag = inr member.
Proof.
  unfold tags_of. intros Htag.
  apply elem_of_cons in Htag as [-> | Htag]; [done |].
  apply list_elem_of_singleton in Htag as ->.
  by destruct member.
Qed.

(** A string is never a value of a [DataTypes] member. *)
Lemma DataTypes_call_str (s : string) : DataTypes_call (VStr s) = inl ValueError.
Proof. reflexivity. Qed.

Section DataTypeFacts.
Context `{Codec}.

(** Construction with a string pair id: the codec is applied, then the
    tag decides. *)
Lemma DataType_init_str (tag : value) (s : string) (e : value) :
  DataType.init tag (VStr s) e =
    match DataTypes_call tag with
    | inl err => inl err
    | inr member => inr (DataType.mk member (VInt (str_to_felt s)) e)
    end.
Proof. unfold DataType.init. cbn. by destruct (DataTypes_call tag). Qed.

(** Construction with an integer pair id: it is kept verbatim. *)
Lemma DataType_init_int (tag p e : value) :
  isinstance_int p = true ->
  DataType.init tag p e =
    match DataTypes_call tag with
    | inl err => inl err
    | inr member => inr (DataType.mk member p e)
    end.
Proof.
  intros Hint. unfold DataType.init.
  destruct p; try discriminate; cbn; by destruct (DataTypes_call tag).
Qed.

(** Any other pair id is refused before the tag is looked at. *)
Lemma DataType_init_TypeError (tag p e : value) :
  isinstance_str p = false -> isinstance_int p = false ->
  DataType.init tag p e =
    inl (TypeError "Pair ID must be string (will be converted to felt) or integer").
Proof. intros Hstr Hint. destruct p; try discriminate; reflexivity. Qed.

End DataTypeFacts.

(** C1, as stated, fails on its own example: the string "SPOT" is the name
    of a member, not a member or a member's value, so for whatever codec
    [DataType("SPOT", "BTC/USD", None)] raises and there is no object to
    serialize. *)
Lemma DataType_str_tag_not_constructed :
  ~ exists (codec : Codec) (d : DataType.t),
      DataType.init (VStr "SPOT") (VStr "BTC/USD") VNone = inr d.
Proof.
  intros (codec & d & Hd).
  rewrite DataType_init_str, DataTypes_call_str in Hd. discriminate.
Qed.

(** C1 (amended): [DataType.serialize()] is determined by the variant, the
    tag being given as the [DataTypes] member or as its value (1, 2, 3):
    constructed with the SPOT tag and any expiration timestamp it returns
    [{"SpotEntry": pair_id}], with the FUTURE tag
    [{"FutureEntry": (pair_id, expiration_timestamp)}], with the OPTION tag
    the empty mapping; a string pair id is coerced to its felt.  In
    particular [DataType(DataTypes.SPOT, "BTC/USD", None)] and
    [DataType(DataTypes.FUTURE, "BTC/USD", 1700000000)] serialize as the
    spec's examples say.  A tag given as the string of the member's name is
    refused at construction. *)
Theorem DataType_serialize_by_variant `{Codec} :
  (forall tag s e, tag ∈ tags_of SPOT ->
     DataType.serialize <$> DataType.init tag (VStr s) e
     = inr {[ "SpotEntry" := VInt (str_to_felt s) ]})
  /\ (forall tag p e, tag ∈ tags_of SPOT -> isinstance_int p = true ->
        DataType.serialize <$> DataType.init tag p e
        = inr {[ "SpotEntry" := p ]})
  /\ (forall tag s e, tag ∈ tags_of FUTURE ->
        DataType.serialize <$> DataType.init tag (VStr s) e
        = inr {[ "FutureEntry" := VTuple [VInt (str_to_felt s); e] ]})
  /\ (forall tag p e, tag ∈ tags_of FUTURE -> isinstance_int p = true ->
        DataType.serialize <$> DataType.init tag p e
        = inr {[ "FutureEntry" := VTuple [p; e] ]})
  /\ (forall tag s e, tag ∈ tags_of OPTION ->
        DataType.serialize <$> DataType.init tag (VStr s) e = inr ∅)
  /\ (forall tag p e, tag ∈ tags_of OPTION -> isinstance_int p = true ->
        DataType.serialize <$> DataType.init tag p e = inr ∅)
  /\ DataType.serialize <$> DataType.init (VDataTypes SPOT) (VStr "BTC/USD") VNone
     = inr {[ "SpotEntry" := VInt (str_to_felt "BTC/USD") ]}
  /\ DataType.serialize
       <$> DataType.init (VDataTypes FUTURE) (VStr "BTC/USD") (VInt 1700000000)
     = inr {[ "FutureEntry" :=
                VTuple [VInt (str_to_felt "BTC/USD"); VInt 1700000000] ]}
  /\ (forall name p e, DataType.init (VStr name) p e = inl ValueError
        \/ exists message, DataType.init (VStr name) p e = inl (TypeError message)).
Proof.
  repeat split.
  - intros tag s e Htag.
    by rewrite DataType_init_str, (DataTypes_call_tags _ _ Htag).
  - intros tag p e Htag Hint.
    by rewrite (DataType_init_int _ _ _ Hint), (DataTypes_call_tags _ _ Htag).
  - intros tag s e Htag.
    by rewrite DataType_init_str, (DataTypes_call_tags _ _ Htag).
  - intros tag p e Htag Hint.
    by rewrite (DataType_init_int _ _ _ Hint), (DataTypes_call_tags _ _ Htag).
  - intros tag s e Htag.
    by rewrite DataType_init_str, (DataTypes_call_tags _ _ Htag).
  - intros tag p e Htag Hint.
    by rewrite (DataType_init_int _ _ _ Hint), (DataTypes_call_tags _ _ Htag).
  - intros name p e.
    destruct (isinstance_str p) eqn:Hstr.
    + left. destruct p; try discriminate. by rewrite DataType_init_str.
    + destruct (isinstance_int p) eqn:Hint.
      * left. by rewrite (DataType_init_int _ _ _ Hint).
      * right. eexists. by apply DataType_init_TypeError.
Qed.

(** ** Currency, Pair, PoolKey *)

Section CurrencyFacts.
Context `{Codec}.

(** The constructor has no failing path: it returns an object for every
    argument list. *)
Lemma Currency_init_total (id_ decimals abstract : value)
    (starknet ethereum : option value) :
  exists c, Currency.init id_ decimals abstract starknet ethereum = inr c.
Proof. eexists. reflexivity. Qed.

(** The identifier of the object built: the felt of a string, anything
    else as it was given. *)
Lemma Currency_init_id (id_ decimals abstract : value)
    (starknet ethereum : option value) (c : Currency.t) :
  Currency.init id_ decimals abstract starknet ethereum = inr c ->
  Currency.id c = match id_ with VStr s => VInt (str_to_felt s) | _ => id_ end.
Proof. intros [= <-]. reflexivity. Qed.

End CurrencyFacts.

(** C2, as stated, fails on its own example: the first parameter of
    [Currency.__init__] is named [id_], so the keyword [id] of
    [Currency(id="BTC", decimals=8, is_abstract_currency=0)] is no
    parameter; for whatever codec the call raises and there is no object to
    serialize. *)
Lemma Currency_keyword_id_rejected :
  ~ exists (codec : Codec) (c : Currency.t),
      Currency_call []
        [("id", VStr "BTC"); ("decimals", VInt 8); ("is_abstract_currency", VInt 0)]
      = inr c.
Proof. intros (codec & c & Hc). vm_compute in Hc. discriminate. Qed.

(** C2 (amended): for every Currency, [serialize()] is the five fields in
    declaration order and cannot fail.  Constructed from an id, decimals,
    an abstract flag and two optional addresses, it is, in this order: the
    felt of a string id (any other id as given), the decimals as given, the
    boolean of an integer flag (0 is [False], 1 is [True]; any other flag
    as given), and for each address 0 when it is omitted or [None], the
    address given otherwise.  The example holds when the id is passed
    positionally or under its parameter's name [id_]:
    [Currency("BTC", 8, 0)] and
    [Currency(id_="BTC", decimals=8, is_abstract_currency=0)] serialize to
    five elements, the third [False], the fourth and fifth 0. *)
Theorem Currency_serialize_fields `{Codec}
    (id_ decimals abstract : value) (starknet ethereum : option value) :
  exists c : Currency.t,
    Currency.init id_ decimals abstract starknet ethereum = inr c
    /\ Currency.serialize c
       = [ Currency.id c; Currency.decimals c; Currency.is_abstract_currency c;
           Currency.starknet_address c; Currency.ethereum_address c ]
    /\ Currency.serialize c
       = [ match id_ with VStr s => VInt (str_to_felt s) | _ => id_ end;
           decimals;
           match abstract with VInt z => VBool (negb (z =? 0)) | _ => abstract end;
           match starknet with
           | None | Some VNone => VInt 0
           | Some address => address
           end;
           match ethereum with
           | None | Some VNone => VInt 0
           | Some address => address
           end ]
    /\ length (Currency.serialize c) = 5%nat
    /\ (forall s, id_ = VStr s -> Currency.serialize c !! 0%nat = Some (VInt (str_to_felt s)))
    /\ (forall z, id_ = VInt z -> Currency.serialize c !! 0%nat = Some (VInt z))
    /\ Currency.serialize c !! 1%nat = Some decimals
    /\ (abstract = VInt 0 -> Currency.serialize c !! 2%nat = Some (VBool false))
    /\ (abstract = VInt 1 -> Currency.serialize c !! 2%nat = Some (VBool true))
    /\ (forall b, abstract = VBool b -> Currency.serialize c !! 2%nat = Some (VBool b))
    /\ (starknet = None -> Currency.serialize c !! 3%nat = Some (VInt 0))
    /\ (ethereum = None -> Currency.serialize c !! 4%nat = Some (VInt 0))
    /\ (forall address, starknet = Some address -> is_None address = false ->
          Currency.serialize c !! 3%nat = Some address)
    /\ (forall address, ethereum = Some address -> is_None address = false ->
          Currency.serialize c !! 4%nat = Some address)
    /\ Currency.serialize <$> Currency.init (VStr "BTC") (VInt 8) (VInt 0) None None
       = inr [ VInt (str_to_felt "BTC"); VInt 8; VBool false; VInt 0; VInt 0 ]
    /\ Currency_call [id_; decimals; abstract] []
       = Currency.init id_ decimals abstract None None
    /\ Currency_call []
         [("id_", id_); ("decimals", decimals); ("is_abstract_currency", abstract)]
       = Currency.init id_ decimals abstract None None
    /\ Currency.serialize <$> Currency_call [VStr "BTC"; VInt 8; VInt 0] []
       = inr [ VInt (str_to_felt "BTC"); VInt 8; VBool false; VInt 0; VInt 0 ]
    /\ Currency.serialize
         <$> Currency_call []
               [("id_", VStr "BTC"); ("decimals", VInt 8); ("is_abstract_currency", VInt 0)]
       = inr [ VInt (str_to_felt "BTC"); VInt 8; VBool false; VInt 0; VInt 0 ].
Proof.
  eexists. split; [reflexivity |].
  split; [reflexivity |].
  split.
  { unfold Currency.serialize. simpl.
    assert ((if isinstance_int abstract then bool_of_int abstract else abstract)
            = match abstract with VInt z => VBool (negb (z =? 0)) | _ => abstract end)
      as -> by by destruct abstract.
    by destruct starknet as [[] |], ethereum as [[] |]. }
  repeat split; try (by intros; subst).
  - intros address -> Hnone. simpl. by rewrite Hnone.
  - intros address -> Hnone. simpl. by rewrite Hnone.
Qed.

(** C3, as stated, fails on an id that is neither a string nor an integer:
    for whatever codec, [Currency(None, 8, 0)] raises nothing. *)
Lemma Currency_None_id_not_refused :
  ~ exists (codec : Codec) (e : exn),
      Currency.init VNone (VInt 8) (VInt 0) None None = inl e.
Proof. intros (codec & e & He). discriminate. Qed.

(** C3 (amended): Currency construction raises no type or coercion error on
    account of its id.  For every id construction returns a complete
    Currency: a string id is stored as its felt, an integer id as it is,
    and an id of any other kind, such as [None] or a tuple, is neither
    coerced nor refused but stored as given (the check [DataType.__init__]
    makes on its pair id has no counterpart here). *)
Theorem Currency_init_accepts_any_id `{Codec} :
  Currency.init VNone (VInt 8) (VInt 0) None None
  = inr (Currency.mk VNone (VInt 8) (VBool false) (VInt 0) (VInt 0))
  /\ isinstance_str VNone = false
  /\ isinstance_int VNone = false
  /\ DataType.init (VDataTypes SPOT) VNone VNone
     = inl (TypeError "Pair ID must be string (will be converted to felt) or integer")
  /\ (forall id_ decimals abstract starknet ethereum,
        isinstance_str id_ = false -> isinstance_int id_ = false ->
        exists c, Currency.init id_ decimals abstract starknet ethereum = inr c
                  /\ Currency.id c = id_)
  /\ (forall s decimals abstract starknet ethereum,
        exists c, Currency.init (VStr s) decimals abstract starknet ethereum = inr c
                  /\ Currency.id c = VInt (str_to_felt s))
  /\ (forall id_ decimals abstract starknet ethereum,
        isinstance_int id_ = true ->
        exists c, Currency.init id_ decimals abstract starknet ethereum = inr c
                  /\ Currency.id c = id_)
  /\ (forall id_ decimals abstract starknet ethereum e,
        Currency.init id_ decimals abstract starknet ethereum <> inl e).
Proof.
  repeat split.
  - intros id_ decimals abstract starknet ethereum Hstr Hint.
    eexists. split; [reflexivity |].
    by destruct id_.
  - intros s decimals abstract starknet ethereum.
    eexists. split; reflexivity.
  - intros id_ decimals abstract starknet ethereum Hint.
    eexists. split; [reflexivity |].
    by destruct id_.
  - intros id_ decimals abstract starknet ethereum e. discriminate.
Qed.

(** C10: the wire and the debug view agree field for field.  For every
    Currency, Pair and PoolKey, looking up the declared field names in
    [to_dict()], in declaration order, gives exactly the elements of
    [serialize()], and [to_dict()] has no other key. *)
Theorem serialize_agrees_with_to_dict :
  (forall c : Currency.t,
     (fun k => Currency.to_dict c !! k) <$>
       [ "id"; "decimals"; "is_abstract_currency"; "starknet_address";
         "ethereum_address" ]
     = Some <$> Currency.serialize c
     /\ size (Currency.to_dict c) = length (Currency.serialize c))
  /\ (forall p : Pair.t,
        (fun k => Pair.to_dict p !! k) <$>
          [ "id"; "quote_currency_id"; "base_currency_id" ]
        = Some <$> Pair.serialize p
        /\ size (Pair.to_dict p) = length (Pair.serialize p))
  /\ (forall k : PoolKey.t,
        (fun f => PoolKey.to_dict k !! f) <$>
          [ "token_0"; "token_1"; "fee"; "tick_spacing"; "extension" ]
        = Some <$> PoolKey.serialize k
        /\ size (PoolKey.to_dict k) = length (PoolKey.serialize k)).
Proof.
  split; [| split].
  - intros [i d a s e]. split; reflexivity.
  - intros [i q b]. split; reflexivity.
  - intros [t0 t1 f ts ex]. split; reflexivity.
Qed.

(** ** The chain-id table and its inverse *)

Lemma invert_snoc (items : list (string * Z)) (kv : string * Z) :
  invert (items ++ [kv])%list = <[kv.2 := kv.1]> (invert items).
Proof. unfold invert. by rewrite foldl_app. Qed.

Lemma networks_of_snoc (items : list (string * Z)) (kv : string * Z) (c : Z) :
  networks_of (items ++ [kv])%list c =
    if decide (kv.2 = c) then (networks_of items c ++ [kv.1])%list
    else networks_of items c.
Proof.
  unfold networks_of. rewrite filter_app, fmap_app.
  rewrite filter_cons, filter_nil.
  case_decide; [done | by rewrite app_nil_r].
Qed.

(** What the comprehension leaves under a chain id is the last network
    written there, whatever the table. *)
Lemma invert_lookup (items : list (string * Z)) (c : Z) :
  invert items !! c = last_writer items c.
Proof.
  unfold last_writer.
  induction items as [| kv items IH] using rev_ind; [done |].
  rewrite invert_snoc, networks_of_snoc, lookup_insert.
  case_decide; [by rewrite last_snoc | done].
Qed.

(** The inverse only names networks that carry the chain id. *)
Lemma invert_lookup_Some (items : list (string * Z)) (c : Z) (n : string) :
  invert items !! c = Some n -> (n, c) ∈ items.
Proof.
  rewrite invert_lookup. unfold last_writer, networks_of. intros Hlast.
  apply last_Some_elem_of, list_elem_of_fmap in Hlast as ([n' c'] & -> & Hin).
  apply list_elem_of_filter in Hin as [Hc Hin]. simpl in Hc. by subst c'.
Qed.

(** A chain id carried by one network only is mapped back to it. *)
Lemma invert_lookup_unique (items : list (string * Z)) (c : Z) (n : string) :
  networks_of items c = [n] -> invert items !! c = Some n.
Proof. rewrite invert_lookup. unfold last_writer, networks_of. by intros ->. Qed.

(** The literal of [CHAIN_IDS] writes every network once. *)
Lemma CHAIN_IDS_keys_NoDup : NoDup CHAIN_IDS_items.*1.
Proof. by_evaluation. Qed.

Lemma CHAIN_IDS_lookup (n : string) (c : Z) :
  CHAIN_IDS !! n = Some c <-> (n, c) ∈ CHAIN_IDS_items.
Proof.
  unfold CHAIN_IDS. symmetry. apply elem_of_list_to_map, CHAIN_IDS_keys_NoDup.
Qed.

(** Every name of the [Network] type has a chain id, and no other name has. *)
Lemma CHAIN_IDS_dom : dom CHAIN_IDS = list_to_set Network.
Proof. by_evaluation. Qed.

(** C6: for every network [n] of the table, with chain id [c],
    [CHAIN_ID_TO_NETWORK[c]] is the last network written with chain id [c];
    it is [n] itself when no other network carries [c] (mainnet,
    pragma_testnet, sepolia) or when [n] is the last of the aliases
    (fork_devnet), and it is fork_devnet for the other networks sharing its
    chain id (devnet, sharingan, testnet). *)
Theorem chain_id_tables_consistent (n : string) (c : Z) :
  CHAIN_IDS !! n = Some c ->
  CHAIN_ID_TO_NETWORK !! c = last (networks_of CHAIN_IDS_items c)
  /\ (exists n', CHAIN_ID_TO_NETWORK !! c = Some n' /\ CHAIN_IDS !! n' = Some c)
  /\ (networks_of CHAIN_IDS_items c = [n] -> CHAIN_ID_TO_NETWORK !! c = Some n)
  /\ (n ∈ [MAINNET; PRAGMA_TESTNET; SEPOLIA; FORK_DEVNET] ->
      CHAIN_ID_TO_NETWORK !! c = Some n)
  /\ (n ∈ [DEVNET; SHARINGAN; TESTNET] ->
      networks_of CHAIN_IDS_items c = [DEVNET; SHARINGAN; TESTNET; FORK_DEVNET]
      /\ CHAIN_ID_TO_NETWORK !! c = Some FORK_DEVNET).
Proof.
  intros Hn. apply CHAIN_IDS_lookup in Hn.
  split; [apply invert_lookup |].
  split.
  { destruct (last (networks_of CHAIN_IDS_items c)) as [n' |] eqn:Hlast.
    - exists n'. rewrite <- Hlast. split; [apply invert_lookup |].
      apply CHAIN_IDS_lookup, invert_lookup_Some.
      by rewrite invert_lookup.
    - apply last_None in Hlast. unfold networks_of in Hlast.
      apply fmap_nil_inv in Hlast.
      assert ((n, c) ∈ filter (fun kv : string * Z => kv.2 = c) CHAIN_IDS_items) as Hin
        by by apply list_elem_of_filter.
      rewrite Hlast in Hin. by apply elem_of_nil in Hin. }
  split; [apply invert_lookup_unique |].
  unfold CHAIN_IDS_items in Hn.
  repeat (apply elem_of_cons in Hn as [[= -> ->] | Hn]);
    [.. | by apply elem_of_nil in Hn];
    (split; intros Hin;
     [ first [ reflexivity | exfalso; revert Hin; by_evaluation ]
     | first [ by split | exfalso; revert Hin; by_evaluation ] ]).
Qed.

(** The theorem at devnet, whose chain id three other networks share. *)
Lemma chain_id_tables_consistent_devnet :
  CHAIN_IDS !! DEVNET = Some 1536727068981429685321
  /\ CHAIN_ID_TO_NETWORK !! 1536727068981429685321
     = last (networks_of CHAIN_IDS_items 1536727068981429685321)
  /\ (exists n', CHAIN_ID_TO_NETWORK !! 1536727068981429685321 = Some n'
                 /\ CHAIN_IDS !! n' = Some 1536727068981429685321)
  /\ (networks_of CHAIN_IDS_items 1536727068981429685321 = [DEVNET] ->
      CHAIN_ID_TO_NETWORK !! 1536727068981429685321 = Some DEVNET)
  /\ (DEVNET ∈ [MAINNET; PRAGMA_TESTNET; SEPOLIA; FORK_DEVNET] ->
      CHAIN_ID_TO_NETWORK !! 1536727068981429685321 = Some DEVNET)
  /\ (DEVNET ∈ [DEVNET; SHARINGAN; TESTNET] ->
      networks_of CHAIN_IDS_items 1536727068981429685321
      = [DEVNET; SHARINGAN; TESTNET; FORK_DEVNET]
      /\ CHAIN_ID_TO_NETWORK !! 1536727068981429685321 = Some FORK_DEVNET).
Proof.
  split; [reflexivity |].
  apply (chain_id_tables_consistent DEVNET 1536727068981429685321).
  reflexivity.
Defined.

(** ** Endpoint resolution *)

Lemma list_getitem_lookup {A : Type} (l : list A) (i : nat) (x : A) :
  l !! i = Some x -> list_getitem l (Z.of_nat i) = inr x.
Proof.
  intros Hx. unfold list_getitem.
  repeat case_decide; try lia.
  by rewrite Nat2Z.id, Hx.
Qed.

Lemma randint_nonempty (b : Z) : 0 <= b -> randint 0 b = inr <$> seqZ 0 (b + 1).
Proof.
  intros Hb. unfold randint. case_decide; [| lia].
  by replace (b - 0 + 1) with (b + 1) by lia.
Qed.

Section PickFacts.
Variable rpc_urls : gmap string (list string).

(** With a pool that is not empty, the draw has one outcome per position
    of the pool, in order, and none raises. *)
Lemma pick_outcomes (network : string) (pool : list string) :
  rpc_urls !! network = Some pool -> pool <> [] ->
  pick rpc_urls network = inr <$> pool.
Proof.
  intros Hpool Hne. unfold pick, dict_getitem, ret. rewrite Hpool.
  rewrite randint_nonempty by (destruct pool; [done | simpl; lia]).
  replace (Z.of_nat (length pool) - 1 + 1) with (Z.of_nat (length pool)) by lia.
  apply list_eq. intros i.
  rewrite !list_lookup_fmap.
  destruct (pool !! i) as [x |] eqn:Hx.
  - rewrite lookup_seqZ_lt by (apply lookup_lt_Some in Hx; lia).
    cbn. rewrite Z.add_0_l.
    by rewrite (list_getitem_lookup _ _ _ Hx).
  - rewrite lookup_seqZ_ge by (apply lookup_ge_None in Hx; lia).
    done.
Qed.

(** With an empty pool the draw itself raises. *)
Lemma pick_empty (network : string) :
  rpc_urls !! network = Some [] -> pick rpc_urls network = [inl ValueError].
Proof. intros Hpool. unfold pick, dict_getitem, ret. by rewrite Hpool. Qed.

(** A pool-backed name resolves by a draw from its pool. *)
Lemma get_rpc_url_from_pool (network : string) (port : option Z) :
  network ∈ [TESTNET; SEPOLIA; MAINNET] ->
  get_rpc_url_from rpc_urls (Some network) port = pick rpc_urls network.
Proof.
  intros Hin.
  repeat (apply elem_of_cons in Hin as [-> | Hin]); [done .. |].
  by apply elem_of_nil in Hin.
Qed.

End PickFacts.

(** C5: for each pool-backed network, whatever the pool table holds for it,
    the URLs [get_rpc_url] can return are exactly the members of that pool,
    and when the pool is not empty the outcomes of the draw are the pool's
    entries, one outcome per entry (each as likely as any other, the draw
    being uniform over the positions); with the module's own table this is
    [get_rpc_url] itself. *)
Theorem get_rpc_url_draws_from_pool
    (rpc_urls : gmap string (list string))
    (network : string) (pool : list string) (port : option Z) :
  network ∈ [TESTNET; SEPOLIA; MAINNET] ->
  rpc_urls !! network = Some pool ->
  (forall u, inr u ∈ get_rpc_url_from rpc_urls (Some network) port <-> u ∈ pool)
  /\ (pool <> [] -> get_rpc_url_from rpc_urls (Some network) port = inr <$> pool)
  /\ (rpc_urls = RPC_URLS ->
      get_rpc_url (Some network) port = inr <$> pool /\ length pool = 1%nat).
Proof.
  intros Hin Hpool.
  rewrite (get_rpc_url_from_pool _ _ _ Hin).
  split; [| split].
  - intros u. destruct pool as [| u0 pool].
    + rewrite (pick_empty _ _ Hpool). split; intros Hu.
      * apply list_elem_of_singleton in Hu. discriminate.
      * by apply elem_of_nil in Hu.
    + rewrite (pick_outcomes _ _ _ Hpool) by done.
      rewrite list_elem_of_fmap. split.
      * by intros (u' & [= ->] & Hu).
      * intros Hu. by exists u.
  - by apply pick_outcomes.
  - intros ->. unfold get_rpc_url.
    rewrite (get_rpc_url_from_pool _ _ _ Hin).
    repeat (apply elem_of_cons in Hin as [-> | Hin]);
      [.. | by apply elem_of_nil in Hin];
      vm_compute in Hpool; injection Hpool as <-;
      split; reflexivity.
Qed.

(** The theorem at the module's table and the testnet pool. *)
Lemma get_rpc_url_draws_from_pool_testnet :
  TESTNET ∈ [TESTNET; SEPOLIA; MAINNET]
  /\ RPC_URLS !! TESTNET
     = Some ["https://starknet-testnet.public.blastapi.io/rpc/v0_6"]
  /\ (forall u,
        inr u ∈ get_rpc_url_from RPC_URLS (Some TESTNET) None
        <-> u ∈ ["https://starknet-testnet.public.blastapi.io/rpc/v0_6"])
  /\ (["https://starknet-testnet.public.blastapi.io/rpc/v0_6"] <> [] ->
      get_rpc_url_from RPC_URLS (Some TESTNET) None
      = inr <$> ["https://starknet-testnet.public.blastapi.io/rpc/v0_6"])
  /\ (RPC_URLS = RPC_URLS ->
      get_rpc_url (Some TESTNET) None
      = inr <$> ["https://starknet-testnet.public.blastapi.io/rpc/v0_6"]
      /\ length ["https://starknet-testnet.public.blastapi.io/rpc/v0_6"] = 1%nat).
Proof.
  assert (TESTNET ∈ [TESTNET; SEPOLIA; MAINNET]) as Hin by by_evaluation.
  assert (RPC_URLS !! TESTNET
          = Some ["https://starknet-testnet.public.blastapi.io/rpc/v0_6"]) as Hpool
    by reflexivity.
  split; [exact Hin |]. split; [exact Hpool |].
  exact (get_rpc_url_draws_from_pool RPC_URLS TESTNET _ None Hin Hpool).
Defined.

(** A pool of three entries: each is an outcome, once. *)
Example get_rpc_url_from_three_entries :
  get_rpc_url_from (<[TESTNET := ["https://a"; "https://b"; "https://c"]]> ∅)
    (Some TESTNET) None
  = [inr "https://a"; inr "https://b"; inr "https://c"].
Proof. reflexivity. Qed.

(** The supported names are those of the [Network] literal type. *)
Lemma supported_networks_Network : supported_networks ≡ₚ Network.
Proof. by_evaluation. Qed.

(** An argument that starts with "http" is returned as it is. *)
Lemma get_rpc_url_http (network : string) (port : option Z) :
  startswith network "http" = true ->
  get_rpc_url (Some network) port = [inr network].
Proof.
  intros Hhttp. unfold get_rpc_url, get_rpc_url_from. cbn [default from_option id].
  by rewrite Hhttp.
Qed.

(** An argument that is neither a URL nor a supported name raises. *)
Lemma get_rpc_url_unknown (network : string) (port : option Z) :
  startswith network "http" = false ->
  network ∉ supported_networks ->
  get_rpc_url (Some network) port
  = [inl (ClientException "Must provide a network name or an RPC URL.")].
Proof.
  intros Hhttp Hnot. unfold get_rpc_url, get_rpc_url_from. cbn [default from_option id].
  rewrite Hhttp.
  repeat case_decide; subst;
    try (exfalso; apply Hnot; by_evaluation).
  reflexivity.
Qed.

(** A supported name resolves to one URL and does not raise. *)
Lemma get_rpc_url_supported (network : string) (port : option Z) :
  network ∈ supported_networks ->
  startswith network "http" = false
  /\ exists url, get_rpc_url (Some network) port = [inr url].
Proof.
  intros Hin. unfold supported_networks in Hin.
  repeat (apply elem_of_cons in Hin as [-> | Hin]);
    [.. | by apply elem_of_nil in Hin];
    (split; [reflexivity | eexists; reflexivity]).
Qed.

(** A supported name resolves to a URL that itself starts with "http". *)
Lemma get_rpc_url_supported_http (network : string) (port : option Z) :
  network ∈ supported_networks ->
  exists url, get_rpc_url (Some network) port = [inr url]
              /\ startswith url "http" = true.
Proof.
  intros Hin. unfold supported_networks in Hin.
  repeat (apply elem_of_cons in Hin as [-> | Hin]);
    [.. | by apply elem_of_nil in Hin];
    (eexists; split; reflexivity).
Qed.

(** C4: [get_rpc_url] returns an argument that starts with "http" unchanged;
    it raises [ClientException("Must provide a network name or an RPC
    URL.")] exactly when the argument neither starts with "http" nor is one
    of the seven supported names, and raises nothing else; for every
    supported name it returns a URL, a string that starts with "http". *)
Theorem get_rpc_url_resolution (network : string) (port : option Z) :
  (startswith network "http" = true ->
     get_rpc_url (Some network) port = [inr network])
  /\ (startswith network "http" = false /\ network ∉ supported_networks ->
        get_rpc_url (Some network) port
        = [inl (ClientException "Must provide a network name or an RPC URL.")])
  /\ ((exists e, inl e ∈ get_rpc_url (Some network) port) ->
        startswith network "http" = false /\ network ∉ supported_networks)
  /\ (network ∈ supported_networks ->
        exists url, get_rpc_url (Some network) port = [inr url]
                    /\ startswith url "http" = true
                    /\ url <> network).
Proof.
  split; [apply get_rpc_url_http |].
  split; [intros [Hhttp Hnot]; by apply get_rpc_url_unknown |].
  split.
  - intros [e He].
    destruct (startswith network "http") eqn:Hhttp.
    + rewrite (get_rpc_url_http _ _ Hhttp) in He.
      apply list_elem_of_singleton in He. discriminate.
    + split; [done |]. intros Hin.
      destruct (get_rpc_url_supported _ port Hin) as (_ & url & Hurl).
      rewrite Hurl in He. apply list_elem_of_singleton in He. discriminate.
  - intros Hin.
    destruct (get_rpc_url_supported_http _ port Hin) as (url & Hurl & Hhttp).
    exists url. split; [done |]. split; [done |].
    intros ->. destruct (get_rpc_url_supported _ port Hin) as (Hname & _).
    congruence.
Qed.

(** The messages and names of the spec's examples. *)
Example get_rpc_url_not_a_network :
  get_rpc_url (Some "not-a-network") None
  = [inl (ClientException "Must provide a network name or an RPC URL.")].
Proof. reflexivity. Qed.

Example get_rpc_url_override :
  get_rpc_url (Some "https://my.node/rpc") (Some 1234) = [inr "https://my.node/rpc"].
Proof. reflexivity. Qed.

(** C8: for devnet and fork_devnet and every port [p], [get_rpc_url]
    returns "http://127.0.0.1:" followed by the decimal writing of [p]
    followed by "/rpc"; with the port omitted it is 5050;
    [get_rpc_url("devnet", port=6060) == "http://127.0.0.1:6060/rpc"]. *)
Theorem get_rpc_url_local (p : Z) :
  get_rpc_url (Some DEVNET) (Some p)
    = [inr ("http://127.0.0.1:" +:+ str_int p +:+ "/rpc")]
  /\ get_rpc_url (Some FORK_DEVNET) (Some p)
     = [inr ("http://127.0.0.1:" +:+ str_int p +:+ "/rpc")]
  /\ get_rpc_url (Some DEVNET) None = [inr "http://127.0.0.1:5050/rpc"]
  /\ get_rpc_url (Some FORK_DEVNET) None = [inr "http://127.0.0.1:5050/rpc"]
  /\ get_rpc_url (Some "devnet") (Some 6060) = [inr "http://127.0.0.1:6060/rpc"]
  /\ str_int 6060 = "6060".
Proof. repeat split. Qed.

(** * Further properties of the module *)

(** ** The tag lookup *)

(** Among the objects modelled here ([None], booleans, integers, strings,
    tuples and the members themselves; numbers of other types, such as the
    float 1.0, which equals 1, are not among them), [DataTypes(x)] returns
    a member exactly for that member, for its value as an integer, and for
    [True] (which equals 1); [False], 0, [None], tuples and every string,
    the member's name included, raise. *)
Theorem DataTypes_call_inr_iff (x : value) (member : DataTypes) :
  DataTypes_call x = inr member
  <-> x = VDataTypes member
      \/ x = VInt (DataTypes_value member)
      \/ (x = VBool true /\ member = SPOT).
Proof.
  split.
  - destruct x as [| b | z | s | items | m]; simpl; try discriminate.
    + destruct b; simpl; [| discriminate].
      intros [= <-]. right. right. done.
    + unfold DataTypes_of_value.
      destruct (z =? 1) eqn:H1; [intros [= <-]; apply Z.eqb_eq in H1 as ->; auto |].
      destruct (z =? 2) eqn:H2; [intros [= <-]; apply Z.eqb_eq in H2 as ->; auto |].
      destruct (z =? 3) eqn:H3; [intros [= <-]; apply Z.eqb_eq in H3 as ->; auto |].
      discriminate.
    + intros [= ->]. by left.
  - intros [-> | [-> | [-> ->]]]; [done | by destruct member | done].
Qed.

(** The lookup raises nothing but [ValueError]. *)
Lemma DataTypes_call_inl (x : value) (err : exn) :
  DataTypes_call x = inl err -> err = ValueError.
Proof.
  destruct x as [| b | z | s | items | m]; simpl; try by intros [= <-].
  - destruct b; simpl; [discriminate | by intros [= <-]].
  - unfold DataTypes_of_value.
    repeat case_match; try discriminate. by intros [= <-].
Qed.

(** The only exception of the lookup is [ValueError]; on integers it is
    raised exactly outside 1..3, and inside the member found has the
    integer as its value. *)
Theorem DataTypes_call_error (x : value) :
  (forall err, DataTypes_call x = inl err -> err = ValueError)
  /\ (forall z, x = VInt z ->
        (DataTypes_call x = inl ValueError <-> z < 1 \/ 3 < z)
        /\ (forall member, DataTypes_call x = inr member -> DataTypes_value member = z)).
Proof.
  split; [intros err; apply DataTypes_call_inl |].
  intros z ->. simpl. unfold DataTypes_of_value. split.
  - repeat case_match; split; try discriminate; try lia; done.
  - intros member. repeat case_match; try discriminate;
      intros [= <-]; simpl; lia.
Qed.

(** ** DataType: construction and wire form *)

(** [DataType.__init__] by outcome.  The pair id is checked before the tag:
    an id that is neither a string nor an integer raises [TypeError] even
    with a valid tag, and an invalid tag is only reported for an acceptable
    id.  An object that is built holds the member, an integer pair id (the
    felt of a string, or the integer given) and the timestamp untouched;
    building again from its three fields gives the same object, while the
    tag [to_dict()] shows (the member's name) is refused by the
    constructor. *)
Theorem DataType_init_outcome `{Codec} (tag p e : value) :
  match DataType.init tag p e with
  | inl err =>
      (err = TypeError "Pair ID must be string (will be converted to felt) or integer"
       /\ isinstance_str p = false /\ isinstance_int p = false)
      \/ (err = ValueError
          /\ (isinstance_str p = true \/ isinstance_int p = true)
          /\ DataTypes_call tag = inl ValueError)
  | inr d =>
      DataTypes_call tag = inr (DataType.data_type d)
      /\ DataType.pair_id d = Pair.coerce p
      /\ DataType.expiration_timestamp d = e
      /\ isinstance_int (DataType.pair_id d) = true
      /\ DataType.init (VDataTypes (DataType.data_type d)) (DataType.pair_id d)
           (DataType.expiration_timestamp d) = inr d
      /\ DataType.to_dict d !! "data_type"
         = Some (VStr (DataTypes_name (DataType.data_type d)))
      /\ DataType.init (VStr (DataTypes_name (DataType.data_type d)))
           (DataType.pair_id d) (DataType.expiration_timestamp d) = inl ValueError
  end.
Proof.
  destruct (isinstance_str p) eqn:Hstr.
  - destruct p; try discriminate. rewrite DataType_init_str.
    destruct (DataTypes_call tag) as [err | member] eqn:Htag.
    + right. pose proof (DataTypes_call_inl tag err Htag) as ->. auto.
    + repeat split.
  - destruct (isinstance_int p) eqn:Hint.
    + rewrite (DataType_init_int _ _ _ Hint).
      destruct (DataTypes_call tag) as [err | member] eqn:Htag.
      * right. pose proof (DataTypes_call_inl tag err Htag) as ->. auto.
      * destruct p; try discriminate; repeat split.
    + rewrite (DataType_init_TypeError _ _ _ Hstr Hint). left. auto.
Qed.

(** Two singleton dictionaries are equal exactly when key and value are. *)
Lemma dict_singleton_eq_iff {V : Type} (k1 k2 : string) (v1 v2 : V) :
  ({[ k1 := v1 ]} : gmap string V) = {[ k2 := v2 ]} <-> k1 = k2 /\ v1 = v2.
Proof.
  split; [| by intros [-> ->]].
  intros Heq.
  assert (({[ k2 := v2 ]} : gmap string V) !! k1 = Some v1) as Hlook
    by (rewrite <- Heq; apply lookup_singleton_eq).
  apply lookup_singleton_Some in Hlook as [-> ->]. done.
Qed.

(** What the wire form of a DataType keeps: the variant always; the pair id
    for SPOT and FUTURE; the timestamp for FUTURE only; nothing else for
    OPTION.  So two SPOT objects that differ in the timestamp only, and any
    two OPTION objects, serialize alike. *)
Theorem DataType_serialize_eq_iff (d1 d2 : DataType.t) :
  DataType.serialize d1 = DataType.serialize d2
  <-> DataType.data_type d1 = DataType.data_type d2
      /\ match DataType.data_type d1 with
         | SPOT => DataType.pair_id d1 = DataType.pair_id d2
         | FUTURE =>
             DataType.pair_id d1 = DataType.pair_id d2
             /\ DataType.expiration_timestamp d1 = DataType.expiration_timestamp d2
         | OPTION => True
         end.
Proof.
  destruct d1 as [t1 p1 e1], d2 as [t2 p2 e2].
  unfold DataType.serialize. simpl.
  destruct t1, t2;
    (split; [intros Heq | intros [Htag Hrest]; try discriminate Htag]);
    try solve [ apply dict_singleton_eq_iff in Heq as [Hkey _]; discriminate Hkey ];
    try solve [ by apply map_non_empty_singleton in Heq ];
    try solve [ symmetry in Heq; by apply map_non_empty_singleton in Heq ].
  - apply dict_singleton_eq_iff in Heq as [_ ->]. done.
  - by rewrite Hrest.
  - apply dict_singleton_eq_iff in Heq as [_ [= -> ->]]. done.
  - by destruct Hrest as [-> ->].
  - done.
  - done.
Qed.

(** ** Enumerations: the wire form names the member *)

(** The serialized tag determines the member, within each enumeration, and
    no AggregationMode tag is also a RequestStatus tag. *)
Theorem enum_serialize_inj :
  (forall m1 m2 : AggregationMode.t,
     AggregationMode.serialize m1 = AggregationMode.serialize m2 <-> m1 = m2)
  /\ (forall r1 r2 : RequestStatus.t,
        RequestStatus.serialize r1 = RequestStatus.serialize r2 <-> r1 = r2)
  /\ (forall (m : AggregationMode.t) (r : RequestStatus.t),
        AggregationMode.serialize m <> RequestStatus.serialize r).
Proof.
  split; [| split].
  - intros m1 m2. split; [| by intros ->].
    intros Heq. apply dict_singleton_eq_iff in Heq as [Hval _].
    by apply AggregationMode_value_inj.
  - intros r1 r2. split; [| by intros ->].
    intros Heq. apply dict_singleton_eq_iff in Heq as [Hval _].
    by apply RequestStatus_value_inj.
  - intros m r Heq. apply dict_singleton_eq_iff in Heq as [Hval _].
    by destruct m, r.
Qed.

(** ** Currency and Pair: what the constructors normalise *)

(** A coerced identifier is never a string, and coercing again changes
    nothing. *)
Lemma coerce_not_str `{Codec} (x : value) : isinstance_str (Pair.coerce x) = false.
Proof. by destruct x. Qed.

Lemma coerce_idemp `{Codec} (x : value) : Pair.coerce (Pair.coerce x) = Pair.coerce x.
Proof. by destruct x. Qed.

(** [Currency.__init__] always returns, and the object it returns is in
    normal form: the id is not a string (a string became its felt, anything
    else was kept); an integer [is_abstract_currency] became the boolean
    [z != 0], so it is never a bare integer; an address that was omitted or
    passed as [None] became 0, so neither address is [None], and any other
    address was kept.  Building again from the object's own five fields
    gives the same object. *)
Theorem Currency_init_normal_form `{Codec}
    (id_ decimals abstract : value) (starknet ethereum : option value) :
  exists c : Currency.t,
    Currency.init id_ decimals abstract starknet ethereum = inr c
    /\ Currency.id c = Pair.coerce id_
    /\ isinstance_str (Currency.id c) = false
    /\ Currency.decimals c = decimals
    /\ (forall z, abstract = VInt z ->
          Currency.is_abstract_currency c = VBool (negb (z =? 0)))
    /\ (isinstance_int abstract = false -> Currency.is_abstract_currency c = abstract)
    /\ (forall z, Currency.is_abstract_currency c <> VInt z)
    /\ (starknet = None \/ starknet = Some VNone -> Currency.starknet_address c = VInt 0)
    /\ (forall v, starknet = Some v -> is_None v = false -> Currency.starknet_address c = v)
    /\ (ethereum = None \/ ethereum = Some VNone -> Currency.ethereum_address c = VInt 0)
    /\ (forall v, ethereum = Some v -> is_None v = false -> Currency.ethereum_address c = v)
    /\ is_None (Currency.starknet_address c) = false
    /\ is_None (Currency.ethereum_address c) = false
    /\ Currency.init (Currency.id c) (Currency.decimals c) (Currency.is_abstract_currency c)
         (Some (Currency.starknet_address c)) (Some (Currency.ethereum_address c))
       = inr c.
Proof.
  eexists. split; [reflexivity |]. simpl.
  split; [by destruct id_ |].
  split; [by destruct id_ |].
  split; [done |].
  split; [by intros z -> |].
  split; [by intros -> |].
  split; [by destruct abstract |].
  split; [by intros [-> | ->] |].
  split; [intros v -> Hv; simpl; by rewrite Hv |].
  split; [by intros [-> | ->] |].
  split; [intros v -> Hv; simpl; by rewrite Hv |].
  split; [by destruct starknet as [[] |] |].
  split; [by destruct ethereum as [[] |] |].
  unfold Currency.init, ret. simpl. f_equal. f_equal.
  - by destruct id_.
  - by destruct abstract.
  - by destruct starknet as [[] |].
  - by destruct ethereum as [[] |].
Qed.

(** [Pair.__init__] always returns, whatever the three arguments are (no
    argument is refused, unlike the pair id of a DataType); each field is
    coerced on its own, so no field of a Pair is a string, a string and its
    felt build the same Pair, and building again from the three fields
    gives the same Pair.  [serialize()] lists id, quote, base in that
    order. *)
Theorem Pair_init_normal_form `{Codec} (id_ quote base : value) :
  exists p : Pair.t,
    Pair.init id_ quote base = inr p
    /\ Pair.serialize p = [Pair.coerce id_; Pair.coerce quote; Pair.coerce base]
    /\ Forall (fun x => isinstance_str x = false) (Pair.serialize p)
    /\ (forall x, isinstance_str x = false -> Pair.coerce x = x)
    /\ (forall s, Pair.coerce (VStr s) = VInt (str_to_felt s)
                  /\ Pair.init (VStr s) quote base = Pair.init (VInt (str_to_felt s)) quote base
                  /\ Pair.init id_ (VStr s) base = Pair.init id_ (VInt (str_to_felt s)) base
                  /\ Pair.init id_ quote (VStr s) = Pair.init id_ quote (VInt (str_to_felt s)))
    /\ Pair.init (Pair.id p) (Pair.quote_currency_id p) (Pair.base_currency_id p) = inr p.
Proof.
  eexists. split; [reflexivity |]. simpl.
  split; [done |].
  split; [repeat constructor; apply coerce_not_str |].
  split; [by intros [] |].
  split; [done |].
  unfold Pair.init, ret. by rewrite !coerce_idemp.
Qed.

(** ** The wire form and the debug view lose nothing *)

Lemma Currency_to_dict_lookup (c : Currency.t) :
  (fun k => Currency.to_dict c !! k) <$>
    [ "id"; "decimals"; "is_abstract_currency"; "starknet_address"; "ethereum_address" ]
  = Some <$> Currency.serialize c.
Proof. by destruct c. Qed.

Lemma Pair_to_dict_lookup (p : Pair.t) :
  (fun k => Pair.to_dict p !! k) <$> [ "id"; "quote_currency_id"; "base_currency_id" ]
  = Some <$> Pair.serialize p.
Proof. by destruct p. Qed.

Lemma PoolKey_to_dict_lookup (k : PoolKey.t) :
  (fun f => PoolKey.to_dict k !! f) <$>
    [ "token_0"; "token_1"; "fee"; "tick_spacing"; "extension" ]
  = Some <$> PoolKey.serialize k.
Proof. by destruct k. Qed.

(** Two objects of Currency, Pair or PoolKey with the same [serialize()],
    or with the same [to_dict()], are the same object: both views determine
    every field. *)
Theorem serialize_and_to_dict_inj :
  (forall c1 c2 : Currency.t,
     (Currency.serialize c1 = Currency.serialize c2 <-> c1 = c2)
     /\ (Currency.to_dict c1 = Currency.to_dict c2 <-> c1 = c2))
  /\ (forall p1 p2 : Pair.t,
        (Pair.serialize p1 = Pair.serialize p2 <-> p1 = p2)
        /\ (Pair.to_dict p1 = Pair.to_dict p2 <-> p1 = p2))
  /\ (forall k1 k2 : PoolKey.t,
        (PoolKey.serialize k1 = PoolKey.serialize k2 <-> k1 = k2)
        /\ (PoolKey.to_dict k1 = PoolKey.to_dict k2 <-> k1 = k2)).
Proof.
  assert (forall c1 c2, Currency.serialize c1 = Currency.serialize c2 -> c1 = c2) as Hc
    by (intros [] []; by intros [= -> -> -> -> ->]).
  assert (forall p1 p2, Pair.serialize p1 = Pair.serialize p2 -> p1 = p2) as Hp
    by (intros [] []; by intros [= -> -> ->]).
  assert (forall k1 k2, PoolKey.serialize k1 = PoolKey.serialize k2 -> k1 = k2) as Hk
    by (intros [] []; by intros [= -> -> -> -> ->]).
  split; [| split].
  - intros c1 c2. split; (split; [| by intros ->]); [apply Hc |].
    intros Heq. apply Hc.
    pose proof (Currency_to_dict_lookup c1) as H1.
    rewrite Heq, Currency_to_dict_lookup in H1.
    by apply (inj (fmap Some)) in H1.
  - intros p1 p2. split; (split; [| by intros ->]); [apply Hp |].
    intros Heq. apply Hp.
    pose proof (Pair_to_dict_lookup p1) as H1.
    rewrite Heq, Pair_to_dict_lookup in H1.
    by apply (inj (fmap Some)) in H1.
  - intros k1 k2. split; (split; [| by intros ->]); [apply Hk |].
    intros Heq. apply Hk.
    pose proof (PoolKey_to_dict_lookup k1) as H1.
    rewrite Heq, PoolKey_to_dict_lookup in H1.
    by apply (inj (fmap Some)) in H1.
Qed.

(** ** Endpoint resolution: what the result depends on *)

(** The draw for a network reads that network's pool and nothing else. *)
Lemma pick_ext (tbl tbl' : gmap string (list string)) (network : string) :
  tbl !! network = tbl' !! network -> pick tbl network = pick tbl' network.
Proof. intros Heq. unfold pick, dict_getitem. by rewrite Heq. Qed.

(** The port only matters for devnet and fork_devnet; the pool table only
    matters for testnet, sepolia and mainnet, and then only through the
    pool of the network asked for; with the network omitted the call is the
    one for testnet. *)
Theorem get_rpc_url_from_dependence
    (tbl tbl' : gmap string (list string)) (network : string) (port port' : option Z) :
  (network <> DEVNET /\ network <> FORK_DEVNET ->
     get_rpc_url_from tbl (Some network) port = get_rpc_url_from tbl (Some network) port')
  /\ (network ∉ [TESTNET; SEPOLIA; MAINNET] ->
        get_rpc_url_from tbl (Some network) port = get_rpc_url_from tbl' (Some network) port)
  /\ (tbl !! network = tbl' !! network ->
        get_rpc_url_from tbl (Some network) port = get_rpc_url_from tbl' (Some network) port)
  /\ get_rpc_url_from tbl None port = get_rpc_url_from tbl (Some TESTNET) port.
Proof.
  split; [| split; [| split; [| done]]].
  - intros [Hdev Hfork]. unfold get_rpc_url_from. cbn [default from_option id].
    destruct (startswith network "http"); [done |].
    repeat case_decide; done.
  - intros Hnot. unfold get_rpc_url_from. cbn [default from_option id].
    destruct (startswith network "http"); [done |].
    repeat case_decide; subst; try done; exfalso; apply Hnot; by_evaluation.
  - intros Heq. unfold get_rpc_url_from. cbn [default from_option id].
    destruct (startswith network "http"); [done |].
    repeat case_decide; subst; try done; by apply pick_ext.
Qed.

(** For a pool-backed network the only failures come from the table: a
    missing pool gives [KeyError], an empty pool gives [ValueError] (the
    draw has an empty range), and with a pool of at least one URL nothing
    is raised; an index is never out of range. *)
Theorem get_rpc_url_from_pool_errors
    (tbl : gmap string (list string)) (network : string) (port : option Z) :
  network ∈ [TESTNET; SEPOLIA; MAINNET] ->
  (tbl !! network = None ->
     get_rpc_url_from tbl (Some network) port = [inl KeyError])
  /\ (tbl !! network = Some [] ->
        get_rpc_url_from tbl (Some network) port = [inl ValueError])
  /\ ((exists e, inl e ∈ get_rpc_url_from tbl (Some network) port)
      <-> tbl !! network = None \/ tbl !! network = Some [])
  /\ (forall e, inl e ∈ get_rpc_url_from tbl (Some network) port ->
        e = KeyError \/ e = ValueError).
Proof.
  intros Hin. rewrite (get_rpc_url_from_pool _ _ _ Hin).
  assert (tbl !! network = None -> pick tbl network = [inl KeyError]) as Hnone
    by (intros Hn; unfold pick, dict_getitem; by rewrite Hn).
  destruct (tbl !! network) as [[| u pool] |] eqn:Hpool.
  - rewrite (pick_empty _ _ Hpool).
    repeat split; try done.
    + intros _. by right.
    + intros _. exists ValueError. by apply list_elem_of_singleton.
    + intros e He. apply list_elem_of_singleton in He as [= ->]. by right.
  - rewrite (pick_outcomes _ _ _ Hpool) by done.
    assert (forall e, inl e ∉ (inr <$> u :: pool : list (result string))) as Hno.
    { intros e He. apply list_elem_of_fmap in He as (x & [=] & _). }
    repeat split; try done.
    + intros [e He]. by apply Hno in He.
    + by intros [[=] | [=]].
    + intros e He. by apply Hno in He.
  - rewrite (Hnone eq_refl).
    repeat split; try done.
    + intros _. by left.
    + intros _. exists KeyError. by apply list_elem_of_singleton.
    + intros e He. apply list_elem_of_singleton in He as [= ->]. by left.
Qed.

(** The theorem at an empty table. *)
Lemma get_rpc_url_from_pool_errors_empty_table :
  TESTNET ∈ [TESTNET; SEPOLIA; MAINNET]
  /\ ((∅ : gmap string (list string)) !! TESTNET = None ->
      get_rpc_url_from ∅ (Some TESTNET) None = [inl KeyError])
  /\ ((∅ : gmap string (list string)) !! TESTNET = Some [] ->
      get_rpc_url_from ∅ (Some TESTNET) None = [inl ValueError])
  /\ ((exists e, inl e ∈ get_rpc_url_from ∅ (Some TESTNET) None)
      <-> (∅ : gmap string (list string)) !! TESTNET = None
          \/ (∅ : gmap string (list string)) !! TESTNET = Some [])
  /\ (forall e, inl e ∈ get_rpc_url_from ∅ (Some TESTNET) None ->
        e = KeyError \/ e = ValueError).
Proof.
  assert (TESTNET ∈ [TESTNET; SEPOLIA; MAINNET]) as Hin by by_evaluation.
  split; [exact Hin |].
  exact (get_rpc_url_from_pool_errors ∅ TESTNET None Hin).
Defined.

(** Whatever [get_rpc_url] returns starts with "http", so resolving a
    resolved URL again, with any port, returns it unchanged. *)
Theorem get_rpc_url_idempotent (network : string) (port port' : option Z) (u : string) :
  inr u ∈ get_rpc_url (Some network) port ->
  startswith u "http" = true
  /\ get_rpc_url (Some u) port' = [inr u].
Proof.
  intros Hu.
  assert (startswith u "http" = true) as Hhttp.
  { destruct (startswith network "http") eqn:Hnet.
    - rewrite (get_rpc_url_http _ _ Hnet) in Hu.
      by apply list_elem_of_singleton in Hu as [= ->].
    - destruct (decide (network ∈ supported_networks)) as [Hin | Hnot].
      + destruct (get_rpc_url_supported_http _ port Hin) as (url & Hurl & Hhttp).
        rewrite Hurl in Hu. by apply list_elem_of_singleton in Hu as [= ->].
      + rewrite (get_rpc_url_unknown _ _ Hnet Hnot) in Hu.
        apply list_elem_of_singleton in Hu. discriminate. }
  split; [done | by apply get_rpc_url_http].
Qed.

(** The theorem at mainnet. *)
Lemma get_rpc_url_idempotent_mainnet :
  inr "https://starknet-mainnet.public.blastapi.io/rpc/v0_6"
    ∈ get_rpc_url (Some MAINNET) None
  /\ startswith "https://starknet-mainnet.public.blastapi.io/rpc/v0_6" "http" = true
  /\ get_rpc_url (Some "https://starknet-mainnet.public.blastapi.io/rpc/v0_6") (Some 6060)
     = [inr "https://starknet-mainnet.public.blastapi.io/rpc/v0_6"].
Proof.
  assert (inr "https://starknet-mainnet.public.blastapi.io/rpc/v0_6"
            ∈ get_rpc_url (Some MAINNET) None) as Hu
    by (apply list_elem_of_singleton; reflexivity).
  split; [exact Hu |].
  exact (get_rpc_url_idempotent MAINNET None (Some 6060) _ Hu).
Defined.

(** ** The client *)

(** [get_client_from_network] builds a client from every URL [get_rpc_url]
    can return and from nothing else, and raises what [get_rpc_url] raises:
    a URL argument is handed to the client unchanged, an unknown name
    raises [ClientException] and no client is built, and an omitted port
    is 5050. *)
Theorem get_client_from_network_outcomes
    (client : Type) (FullNodeClient : string -> client)
    (network : string) (port : option Z) :
  (startswith network "http" = true ->
     get_client_from_network client FullNodeClient network port
     = [inr (FullNodeClient network)])
  /\ (startswith network "http" = false /\ network ∉ supported_networks ->
        get_client_from_network client FullNodeClient network port
        = [inl (ClientException "Must provide a network name or an RPC URL.")])
  /\ (forall c, inr c ∈ get_client_from_network client FullNodeClient network port
        <-> exists url, inr url ∈ get_rpc_url (Some network) (Some (default 5050 port))
                        /\ c = FullNodeClient url)
  /\ (forall e, inl e ∈ get_client_from_network client FullNodeClient network port
        <-> inl e ∈ get_rpc_url (Some network) (Some (default 5050 port)))
  /\ get_client_from_network client FullNodeClient network None
     = get_client_from_network client FullNodeClient network (Some 5050)
  /\ get_client_from_network client FullNodeClient DEVNET port
     = [inr (FullNodeClient ("http://127.0.0.1:" +:+ str_int (default 5050 port) +:+ "/rpc"))].
Proof.
  unfold get_client_from_network.
  split; [| split; [| split; [| split; [| split; [done | done]]]]].
  - intros Hhttp. by rewrite (get_rpc_url_http _ _ Hhttp).
  - intros [Hhttp Hnot]. by rewrite (get_rpc_url_unknown _ _ Hhttp Hnot).
  - intros c. rewrite list_elem_of_fmap. split.
    + intros ([e | url] & Hc & Hin); [discriminate |].
      injection Hc as ->. by exists url.
    + intros (url & Hin & ->). by exists (inr url).
  - intros e. rewrite list_elem_of_fmap. split.
    + intros ([e' | url] & He & Hin); [| discriminate].
      by injection He as ->.
    + intros Hin. by exists (inl e).
Qed.

(** ** The registry tables *)

(** The three tables keyed by network are keyed by the same seven names,
    those of the [Network] type, which are also exactly the names
    [get_rpc_url] resolves; the pool table holds a non-empty pool for
    three of them. *)
Theorem registry_tables_keys :
  dom CHAIN_IDS = list_to_set Network
  /\ dom STARKSCAN_URLS = list_to_set Network
  /\ dom CONTRACT_ADDRESSES = list_to_set Network
  /\ (list_to_set supported_networks : gset string) = list_to_set Network
  /\ dom RPC_URLS = list_to_set [MAINNET; TESTNET; SEPOLIA]
  /\ dom RPC_URLS ⊆ dom CHAIN_IDS
  /\ map_Forall (fun _ pool => pool <> []) RPC_URLS
  /\ dom CHAIN_ID_TO_NETWORK = list_to_set CHAIN_IDS_items.*2.
Proof.
  repeat split; by_evaluation.
Qed.

(** ** Inverting a table *)

Lemma invert_dom (items : list (string * Z)) :
  dom (invert items) = list_to_set items.*2.
Proof.
  induction items as [| kv items IH] using rev_ind; [done |].
  rewrite invert_snoc, dom_insert_L, IH, fmap_app, list_to_set_app_L. simpl.
  rewrite (right_id_L ∅ (∪)). apply (comm_L (∪)).
Qed.

(** No network is found for a chain id the table does not use. *)
Lemma networks_of_fresh (items : list (string * Z)) (c : Z) :
  c ∉ items.*2 -> networks_of items c = [].
Proof.
  unfold networks_of.
  induction items as [| [n' c'] items IH]; [done |].
  rewrite fmap_cons. simpl. intros Hfresh.
  apply not_elem_of_cons in Hfresh as [Hne Hfresh].
  rewrite filter_cons. simpl. case_decide as Hc; [by subst c' |].
  by apply IH.
Qed.

(** In a table without two networks on one chain id, the networks of a
    chain id are the one network listed with it. *)
Lemma networks_of_NoDup (items : list (string * Z)) (n : string) (c : Z) :
  NoDup items.*2 -> (n, c) ∈ items -> networks_of items c = [n].
Proof.
  unfold networks_of.
  induction items as [| [n' c'] items IH]; intros Hnodup Hin.
  - by apply elem_of_nil in Hin.
  - simpl in Hnodup. apply NoDup_cons in Hnodup as [Hfresh Hnodup].
    rewrite filter_cons. simpl. case_decide as Hc.
    + subst c'. apply elem_of_cons in Hin as [[= ->] | Hin].
      * pose proof (networks_of_fresh _ _ Hfresh) as Hnil.
        unfold networks_of in Hnil. rewrite fmap_cons. by rewrite Hnil.
      * exfalso. apply Hfresh. apply list_elem_of_fmap. by exists (n, c).
    + apply elem_of_cons in Hin as [[= -> ->] | Hin]; [done |].
      by apply IH.
Qed.

(** The comprehension [{v: k for k, v in items}] over any table with
    distinct keys: whatever the inverse holds under a chain id is a network
    that has this chain id, and its keys are exactly the chain ids in
    use. *)
Theorem invert_sound (items : list (string * Z)) :
  NoDup items.*1 ->
  (forall c n, invert items !! c = Some n ->
     (list_to_map items : gmap string Z) !! n = Some c)
  /\ dom (invert items) = list_to_set items.*2.
Proof.
  intros Hkeys. split; [| apply invert_dom].
  intros c n Hinv. apply elem_of_list_to_map; [done |].
  by apply invert_lookup_Some.
Qed.

(** The theorem at the module's table. *)
Lemma invert_sound_CHAIN_IDS :
  NoDup CHAIN_IDS_items.*1
  /\ (forall c n, CHAIN_ID_TO_NETWORK !! c = Some n -> CHAIN_IDS !! n = Some c)
  /\ dom CHAIN_ID_TO_NETWORK = list_to_set CHAIN_IDS_items.*2.
Proof.
  assert (NoDup CHAIN_IDS_items.*1) as Hkeys by by_evaluation.
  split; [exact Hkeys |].
  exact (invert_sound CHAIN_IDS_items Hkeys).
Defined.

(** When, besides, no two networks of the table share a chain id, the table
    and its inverse are inverse to each other: aliasing is the only way the
    round trip through the inverse can change the network. *)
Theorem invert_exact (items : list (string * Z)) (n : string) (c : Z) :
  NoDup items.*1 -> NoDup items.*2 ->
  ((list_to_map items : gmap string Z) !! n = Some c <-> invert items !! c = Some n).
Proof.
  intros Hkeys Hvals. split.
  - intros Hn. apply elem_of_list_to_map in Hn; [| done].
    apply invert_lookup_unique. by apply networks_of_NoDup.
  - intros Hinv. apply elem_of_list_to_map; [done |].
    by apply invert_lookup_Some.
Qed.

(** The theorem at the module's table without the three networks that
    alias fork_devnet's chain id. *)
Lemma invert_exact_without_aliases :
  NoDup (filter (fun kv => kv.1 ∉ [DEVNET; SHARINGAN; TESTNET]) CHAIN_IDS_items).*1
  /\ NoDup (filter (fun kv => kv.1 ∉ [DEVNET; SHARINGAN; TESTNET]) CHAIN_IDS_items).*2
  /\ ((list_to_map (filter (fun kv => kv.1 ∉ [DEVNET; SHARINGAN; TESTNET]) CHAIN_IDS_items)
        : gmap string Z) !! FORK_DEVNET = Some 1536727068981429685321
      <-> invert (filter (fun kv => kv.1 ∉ [DEVNET; SHARINGAN; TESTNET]) CHAIN_IDS_items)
            !! 1536727068981429685321 = Some FORK_DEVNET).
Proof.
  assert (NoDup (filter (fun kv => kv.1 ∉ [DEVNET; SHARINGAN; TESTNET])
                   CHAIN_IDS_items).*1) as Hkeys by by_evaluation.
  assert (NoDup (filter (fun kv => kv.1 ∉ [DEVNET; SHARINGAN; TESTNET])
                   CHAIN_IDS_items).*2) as Hvals by by_evaluation.
  split; [exact Hkeys |]. split; [exact Hvals |].
  exact (invert_exact _ FORK_DEVNET 1536727068981429685321 Hkeys Hvals).
Defined.

(** ** PoolKey and the debug view of a DataType *)

(** [PoolKey.__init__] always returns and keeps every argument as it is:
    no string is coerced, the order of the two tokens is not checked
    (swapped tokens build the key with the tokens swapped), and an
    [extension] passed as [None] stays [None]: only an omitted one is 0.
    [serialize()] of the new key is the argument list, and building again
    from it gives the same key. *)
Theorem PoolKey_init_verbatim
    (token_0 token_1 fee tick_spacing : value) (extension : option value) :
  exists k : PoolKey.t,
    PoolKey.init token_0 token_1 fee tick_spacing extension = inr k
    /\ PoolKey.serialize k
       = [token_0; token_1; fee; tick_spacing; default (VInt 0) extension]
    /\ PoolKey.serialize <$> PoolKey.init token_1 token_0 fee tick_spacing extension
       = inr [token_1; token_0; fee; tick_spacing; default (VInt 0) extension]
    /\ (extension = Some VNone -> PoolKey.extension k = VNone)
    /\ (extension = None -> PoolKey.extension k = VInt 0)
    /\ PoolKey.init (PoolKey.token_0 k) (PoolKey.token_1 k) (PoolKey.fee k)
         (PoolKey.tick_spacing k) (Some (PoolKey.extension k)) = inr k.
Proof.
  eexists. split; [reflexivity |].
  repeat split; by intros ->.
Qed.

Lemma DataTypes_name_inj (m1 m2 : DataTypes) :
  DataTypes_name m1 = DataTypes_name m2 -> m1 = m2.
Proof. destruct m1, m2; simpl; intros Heq; congruence. Qed.

Lemma DataType_to_dict_lookup (d : DataType.t) :
  (fun k => DataType.to_dict d !! k) <$> ["pair_id"; "expiration_timestamp"; "data_type"]
  = [ Some (DataType.pair_id d); Some (DataType.expiration_timestamp d);
      Some (VStr (DataTypes_name (DataType.data_type d))) ].
Proof. by destruct d. Qed.

(** [DataType.to_dict()] keeps what [serialize()] drops: it determines the
    object, timestamp of a SPOT and fields of an OPTION included, and the
    payload of [serialize()] is made of its [pair_id] and
    [expiration_timestamp] entries. *)
Theorem DataType_to_dict_complete (d1 d2 : DataType.t) :
  (DataType.to_dict d1 = DataType.to_dict d2 <-> d1 = d2)
  /\ (DataType.data_type d1 = SPOT ->
        DataType.serialize d1 !! "SpotEntry" = DataType.to_dict d1 !! "pair_id")
  /\ (DataType.data_type d1 = FUTURE ->
        exists p e, DataType.to_dict d1 !! "pair_id" = Some p
                    /\ DataType.to_dict d1 !! "expiration_timestamp" = Some e
                    /\ DataType.serialize d1 !! "FutureEntry" = Some (VTuple [p; e]))
  /\ size (DataType.to_dict d1) = 3%nat
  /\ (size (DataType.serialize d1) <= 1)%nat.
Proof.
  split; [| split; [| split; [| split]]].
  - split; [| by intros ->]. intros Heq.
    pose proof (DataType_to_dict_lookup d1) as H1.
    rewrite Heq, DataType_to_dict_lookup in H1.
    destruct d1 as [t1 p1 e1], d2 as [t2 p2 e2]. simpl in H1.
    injection H1 as -> -> Hname. by apply DataTypes_name_inj in Hname as ->.
  - destruct d1 as [t1 p1 e1]. simpl. by intros ->.
  - destruct d1 as [t1 p1 e1]. simpl. intros ->. by exists p1, e1.
  - by destruct d1.
  - destruct d1 as [[] p1 e1]; unfold DataType.serialize; simpl;
      rewrite ?map_size_singleton, ?map_size_empty; lia.
Qed.
